(** * The controller-side SELinux label translator

    A shallow embedding of
    [pkg/controller/volume/selinuxwarning/translator/selinux_translator.go]
    and the properties of its two operations:
    [SELinuxOptionsToFileLabel] (the encoder) and [Conflicts] (the conflict
    detector).

    Go strings are byte sequences; they are embedded as [string], whose
    characters are 8-bit [ascii] values.  Go slices are embedded as lists.
    A Go run-time panic (index out of range) is embedded as [None]. *)

From Equations Require Import Equations.
From Stdlib Require Import String Ascii List ZArith Lia Bool Arith.
Import ListNotations.

Open Scope string_scope.
Open Scope list_scope.

(** ** Go's [strings] package, as far as the translator calls it *)

Module Strings.

(** [len(s)] *)
Definition len (s : string) : Z := Z.of_nat (String.length s).

(** The slice expression [s[:m]].  (Go panics when [m > len(s)]; [genSplit]
    only slices at an index [Index] has just returned.) *)
Fixpoint sliceTo (s : string) (m : nat) {struct m} : string :=
  match m, s with
  | S m', String a s' => String a (sliceTo s' m')
  | _, _ => ""
  end.

(** The slice expression [s[m:]]. *)
Fixpoint sliceFrom (s : string) (m : nat) {struct m} : string :=
  match m, s with
  | S m', String _ s' => sliceFrom s' m'
  | _, _ => s
  end.

(** The loop of [IndexByteString]:
    [for ; i < len(s); i++ { if s[i] == c { return i } }; return -1],
    where [s] is what is left of the string at index [i]. *)
Fixpoint indexLoop (i : Z) (s : string) (c : ascii) : Z :=
  match s with
  | "" => -1
  | String a s' => if Ascii.eqb a c then i else indexLoop (i + 1) s' c
  end.

(** [strings.Index(s, sep)] for a separator of one byte, which Go
    dispatches to [IndexByteString]: the index of the first [c] in [s],
    or [-1]. *)
Definition Index (s : string) (c : ascii) : Z := indexLoop 0 s c.

(** [strings.Contains(s, sep)] is [Index(s, sep) >= 0]. *)
Definition Contains (s : string) (c : ascii) : bool := (0 <=? Index s c)%Z.

(** [strings.Count(s, sep)] for a separator of one byte: the number of
    bytes of [s] equal to [c]. *)
Fixpoint Count (s : string) (c : ascii) : Z :=
  match s with
  | "" => 0
  | String a s' => (if Ascii.eqb a c then 1 else 0) + Count s' c
  end.

(** The loop of [genSplit]:
    [for i < n { m := Index(s, sep); if m < 0 { break };
                 a[i] = s[:m+sepSave]; s = s[m+len(sep):]; i++ };
     a[i] = s; return a[:i+1]].
    [k] is [n - i], the number of iterations left; the result lists
    [a[i], a[i+1], ...]. *)
Fixpoint splitLoop (k : nat) (s : string) (sep : ascii) (sepSave : Z)
  : list string :=
  match k with
  | O => [s]
  | S k' =>
      let m := Index s sep in
      if (m <? 0)%Z then [s]
      else sliceTo s (Z.to_nat (m + sepSave))
             :: splitLoop k' (sliceFrom s (Z.to_nat (m + 1))) sep sepSave
  end.

(** [genSplit(s, sep, sepSave, n)] for a separator of one byte. *)
Definition genSplit (s : string) (sep : ascii) (sepSave n : Z) : list string :=
  if (n =? 0)%Z then []
  else
    let n := if (n <? 0)%Z then (Count s sep + 1)%Z else n in
    let n := if (len s + 1 <? n)%Z then (len s + 1)%Z else n in
    splitLoop (Z.to_nat (n - 1)) s sep sepSave.

(** [strings.SplitN(s, sep, n)] *)
Definition SplitN (s : string) (sep : ascii) (n : Z) : list string :=
  genSplit s sep 0 n.

(** [strings.Split(s, sep)] *)
Definition Split (s : string) (sep : ascii) : list string :=
  genSplit s sep 0 (-1).

(** [strings.Join(elems, sep)]: no element gives the empty string, one
    element gives itself, otherwise the first element is written to a
    builder and each further one after a separator. *)
Definition Join (elems : list string) (sep : string) : string :=
  match elems with
  | [] => ""
  | [e] => e
  | e :: rest => fold_left (fun b s => (b ++ sep ++ s)%string) rest e
  end.

End Strings.

(** ** The translator *)

Module Translator.

Import Strings.

(** Modelled from the spec: the record [v1.SELinuxOptions], declared in
    the API package and not in the translator's file: four string fields,
    in the order User, Role, Type, Level, where the empty string means
    that the field is not specified.  ([Type] is a keyword here, hence
    [Type_].) *)
Record SELinuxOptions : Set := mkSELinuxOptions {
  User : string;
  Role : string;
  Type_ : string;
  Level : string
}.

(** Go's [error]: an error value carries its message; [nil] is [None]. *)
Definition error : Set := string.

(** [SELinuxEnabled] *)
Definition SELinuxEnabled : bool := true.

(** [SELinuxOptionsToFileLabel(opts *v1.SELinuxOptions) (string, error)];
    the nil pointer is [None]. *)
Definition SELinuxOptionsToFileLabel (opts : option SELinuxOptions)
  : string * option error :=
  match opts with
  | None => ("", None)
  | Some o =>
      let parts := [User o; Role o; Type_ o; Level o] in
      let label := Join parts ":" in
      if (label =? ":::")%string then ("", None) else (label, None)
  end.

(** [for len(partsB) < len(partsA) { partsB = append(partsB, "") }],
    with [n] for [len(partsA)].  The two slices come from two calls of
    [SplitN], each with a backing array of its own, so appending to one
    leaves the other as it is. *)
Equations? padLoop (partsB : list string) (n : nat) : list string
  by wf (n - List.length partsB) lt :=
  padLoop partsB n with lt_dec (List.length partsB) n => {
    | left _ => padLoop (partsB ++ [""]) n
    | right _ => partsB }.
Proof. rewrite length_app; simpl; lia. Qed.

(** The loop [for i := range partsA { ... }] over the indices still to be
    visited.  [partsA[i]] and [partsB[i]] panic out of range. *)
Fixpoint rangeLoop (idx : list nat) (partsA partsB : list string)
  : option bool :=
  match idx with
  | [] => Some false
  | i :: rest =>
      match nth_error partsA i, nth_error partsB i with
      | Some a, Some b =>
          if (a =? b)%string then rangeLoop rest partsA partsB
          else if (a =? "")%string then rangeLoop rest partsA partsB
          else if (b =? "")%string then rangeLoop rest partsA partsB
          else Some true
      | _, _ => None
      end
  end.

(** [Conflicts(labelA, labelB string) bool] *)
Definition Conflicts (labelA labelB : string) : option bool :=
  let partsA := SplitN labelA ":" 4 in
  let partsB := SplitN labelB ":" 4 in
  let '(partsA, partsB) :=
    if (List.length partsA <? List.length partsB)%nat
    then (partsB, partsA) else (partsA, partsB) in
  let partsB := padLoop partsB (List.length partsA) in
  rangeLoop (seq 0 (List.length partsA)) partsA partsB.

End Translator.

(** ** The notions the properties are stated with *)

Module Spec.

Import Strings Translator.

(** At least one of the four fields is specified. *)
Definition someFieldSet (o : SELinuxOptions) : Prop :=
  User o <> "" \/ Role o <> "" \/ Type_ o <> "" \/ Level o <> "".

(** All four fields are unspecified. *)
Definition allFieldsEmpty (o : SELinuxOptions) : Prop :=
  User o = "" /\ Role o = "" /\ Type_ o = "" /\ Level o = "".

(** Right-padding a part-list with empty-string fields up to length [n]. *)
Definition rightPad (parts : list string) (n : nat) : list string :=
  parts ++ repeat "" (n - List.length parts).

(** Position [i] holds two fields that are both non-empty and unequal. *)
Definition conflictAt (pa pb : list string) (i : nat) : Prop :=
  exists x y, nth_error pa i = Some x /\ nth_error pb i = Some y /\
              x <> "" /\ y <> "" /\ x <> y.

(** Position [i] holds two fields that are equal, or of which at least
    one is empty. *)
Definition harmlessAt (pa pb : list string) (i : nat) : Prop :=
  forall x y, nth_error pa i = Some x -> nth_error pb i = Some y ->
              x = y \/ x = "" \/ y = "".

(** The three-way branch of the body of the comparison loop as a
    function of the two fields: [true] when the loop returns there. *)
Definition differ (a b : string) : bool :=
  if (a =? b)%string then false
  else if (a =? "")%string then false
  else if (b =? "")%string then false
  else true.

(** Some position of two part-lists makes the loop return. *)
Definition anyDiffer (pa pb : list string) : bool :=
  existsb (fun ab => differ (fst ab) (snd ab)) (combine pa pb).

(** The label the encoder returns for a record. *)
Definition encode (o : SELinuxOptions) : string :=
  fst (SELinuxOptionsToFileLabel (Some o)).

(** Neither User, Role nor Type contains the delimiter (Level may). *)
Definition headFieldsPlain (o : SELinuxOptions) : Prop :=
  Contains (User o) ":" = false /\ Contains (Role o) ":" = false /\
  Contains (Type_ o) ":" = false.

(** Two values of one field that are both specified and differ. *)
Definition clash (x y : string) : Prop := x <> "" /\ y <> "" /\ x <> y.

(** Two values of one field of which one is unspecified, or that agree. *)
Definition compatible (x y : string) : Prop := x = "" \/ y = "" \/ x = y.

(** [b] fills in [a]: every field of [a] is unspecified or is [b]'s. *)
Definition fillsIn (a b : SELinuxOptions) : Prop :=
  (User a = "" \/ User a = User b) /\ (Role a = "" \/ Role a = Role b) /\
  (Type_ a = "" \/ Type_ a = Type_ b) /\ (Level a = "" \/ Level a = Level b).

End Spec.

(** ** Facts about strings and slices *)

Module StringFacts.

Import Strings.

Lemma append_assoc (a b c : string) :
  ((a ++ b) ++ c)%string = (a ++ (b ++ c))%string.
Proof. induction a as [|x a IH]; simpl; [reflexivity | now rewrite IH]. Qed.

Lemma append_nil_r (a : string) : (a ++ "")%string = a.
Proof. induction a as [|x a IH]; simpl; [reflexivity | now rewrite IH]. Qed.

Lemma length_append (a b : string) :
  String.length (a ++ b) = String.length a + String.length b.
Proof. induction a as [|x a IH]; simpl; [reflexivity | now rewrite IH]. Qed.

Lemma append_eq_nil (a b : string) :
  (a ++ b)%string = "" -> a = "" /\ b = "".
Proof. destruct a; simpl; [auto | discriminate]. Qed.

Lemma length_zero (a : string) : String.length a = 0 -> a = "".
Proof. destruct a; simpl; [reflexivity | discriminate]. Qed.

Lemma sliceTo_app (p r : string) : sliceTo (p ++ r) (String.length p) = p.
Proof.
  induction p as [|x p IH]; simpl; [reflexivity | now rewrite IH].
Qed.

Lemma sliceFrom_app (p r : string) (c : ascii) :
  sliceFrom (p ++ String c r) (S (String.length p)) = r.
Proof. induction p as [|x p IH]; simpl; [reflexivity | exact IH]. Qed.

Lemma len_nonneg (s : string) : (0 <= len s)%Z.
Proof. unfold len; lia. Qed.

Lemma Count_nonneg (s : string) (c : ascii) : (0 <= Count s c)%Z.
Proof. induction s as [|a s IH]; simpl; [lia | destruct (Ascii.eqb a c); lia]. Qed.

Lemma Count_le_len (s : string) (c : ascii) : (Count s c <= len s)%Z.
Proof.
  unfold len; induction s as [|a s IH]; simpl String.length; simpl Count;
    [lia | destruct (Ascii.eqb a c); lia].
Qed.

Lemma Count_app (p r : string) (c : ascii) :
  Count (p ++ r) c = (Count p c + Count r c)%Z.
Proof. induction p as [|a p IH]; simpl; [reflexivity | rewrite IH; lia]. Qed.

Lemma Count_cons_sep (r : string) (c : ascii) :
  Count (String c r) c = (1 + Count r c)%Z.
Proof. simpl; now rewrite Ascii.eqb_refl. Qed.

(** The index loop on a string without the byte. *)
Lemma indexLoop_free (s : string) (c : ascii) (i : Z) :
  Count s c = 0%Z -> indexLoop i s c = (-1)%Z.
Proof.
  revert i; induction s as [|a s IH]; intros i H; simpl in *; [reflexivity|].
  pose proof (Count_nonneg s c).
  destruct (Ascii.eqb a c); [lia | apply IH; lia].
Qed.

(** The index loop stops at the first occurrence of the byte. *)
Lemma indexLoop_app (p r : string) (c : ascii) (i : Z) :
  Count p c = 0%Z -> indexLoop i (p ++ String c r) c = (i + len p)%Z.
Proof.
  unfold len; revert i; induction p as [|a p IH]; intros i H.
  - simpl; rewrite Ascii.eqb_refl; lia.
  - simpl in H; pose proof (Count_nonneg p c).
    simpl append; simpl indexLoop; simpl String.length.
    destruct (Ascii.eqb a c); [lia|].
    rewrite IH by lia; lia.
Qed.

(** A string either has no occurrence of the byte, or splits at the
    first one. *)
Lemma first_sep (s : string) (c : ascii) :
  Count s c = 0%Z \/
  exists p r, s = (p ++ String c r)%string /\ Count p c = 0%Z.
Proof.
  induction s as [|a s IH]; [now left|].
  destruct (Ascii.eqb_spec a c) as [->|Hne].
  - right; exists "", s; split; reflexivity.
  - destruct IH as [H | (p & r & -> & Hp)].
    + left; simpl; apply Ascii.eqb_neq in Hne; rewrite Hne; lia.
    + right; exists (String a p), r; split; [reflexivity|].
      simpl; apply Ascii.eqb_neq in Hne; rewrite Hne; lia.
Qed.

Lemma Contains_false_iff (s : string) (c : ascii) :
  Contains s c = false <-> Count s c = 0%Z.
Proof.
  unfold Contains, Index; split.
  - intros H; destruct (first_sep s c) as [H0 | (p & r & -> & Hp)]; [exact H0|].
    rewrite indexLoop_app in H by exact Hp.
    pose proof (len_nonneg p); apply Z.leb_gt in H; lia.
  - intros H; rewrite indexLoop_free by exact H; reflexivity.
Qed.

(** ** The split loop *)

Lemma splitLoop_free (k : nat) (s : string) (c : ascii) :
  Count s c = 0%Z -> splitLoop k s c 0 = [s].
Proof.
  intros H; destruct k; simpl; [reflexivity|].
  unfold Index; rewrite indexLoop_free by exact H; reflexivity.
Qed.

Lemma splitLoop_cons (k : nat) (p r : string) (c : ascii) :
  Count p c = 0%Z ->
  splitLoop (S k) (p ++ String c r) c 0 = p :: splitLoop k r c 0.
Proof.
  intros H; simpl; unfold Index; rewrite indexLoop_app by exact H.
  pose proof (len_nonneg p) as Hl.
  replace (0 + len p <? 0)%Z with false by (symmetry; apply Z.ltb_ge; lia).
  unfold len; rewrite Z.add_0_l, Z.add_0_r, Nat2Z.id.
  replace (Z.to_nat (Z.of_nat (String.length p) + 1)) with (S (String.length p)) by lia.
  now rewrite sliceTo_app, sliceFrom_app.
Qed.

(** Iterations beyond the number of separators change nothing. *)
Lemma splitLoop_min (k : nat) (s : string) (c : ascii) :
  splitLoop k s c 0 = splitLoop (Nat.min k (Z.to_nat (Count s c))) s c 0.
Proof.
  revert s; induction k as [|k IH]; intros s; [reflexivity|].
  destruct (first_sep s c) as [H0 | (p & r & -> & Hp)].
  - rewrite !splitLoop_free by exact H0; reflexivity.
  - rewrite Count_app, Count_cons_sep, Hp.
    pose proof (Count_nonneg r c).
    replace (Z.to_nat (0 + (1 + Count r c))) with (S (Z.to_nat (Count r c))) by lia.
    simpl Nat.min; rewrite !splitLoop_cons by exact Hp.
    now rewrite <- IH.
Qed.

Lemma splitLoop_length (k : nat) (s : string) (c : ascii) :
  List.length (splitLoop k s c 0) = S (Nat.min k (Z.to_nat (Count s c))).
Proof.
  revert s; induction k as [|k IH]; intros s; [reflexivity|].
  destruct (first_sep s c) as [H0 | (p & r & -> & Hp)].
  - rewrite splitLoop_free by exact H0; rewrite H0; simpl; lia.
  - rewrite splitLoop_cons by exact Hp; simpl List.length; rewrite IH.
    rewrite Count_app, Count_cons_sep, Hp.
    pose proof (Count_nonneg r c); lia.
Qed.

(** [SplitN] with a positive count runs the loop [n - 1] times: the cap
    [n > len(s)+1] of [genSplit] does not change the result. *)
Lemma SplitN_loop (s : string) (c : ascii) (n : Z) :
  (0 < n)%Z -> SplitN s c n = splitLoop (Z.to_nat (n - 1)) s c 0.
Proof.
  intros Hn; unfold SplitN, genSplit.
  replace (n =? 0)%Z with false by (symmetry; apply Z.eqb_neq; lia).
  replace (n <? 0)%Z with false by (symmetry; apply Z.ltb_ge; lia).
  pose proof (Count_le_len s c); pose proof (Count_nonneg s c).
  destruct (Z.ltb_spec (len s + 1) n); [|reflexivity].
  rewrite splitLoop_min, (splitLoop_min (Z.to_nat (n - 1))).
  f_equal; lia.
Qed.

(** [Split] runs the loop once per separator. *)
Lemma Split_loop (s : string) (c : ascii) :
  Split s c = splitLoop (Z.to_nat (Count s c)) s c 0.
Proof.
  unfold Split, genSplit; simpl.
  pose proof (Count_le_len s c); pose proof (Count_nonneg s c).
  replace (len s + 1 <? Count s c + 1)%Z with false
    by (symmetry; apply Z.ltb_ge; lia).
  f_equal; lia.
Qed.

End StringFacts.

(** ** Facts about the encoder *)

Module EncoderFacts.

Import Strings Translator Spec StringFacts.

Lemma someFieldSet_not_allEmpty (o : SELinuxOptions) :
  someFieldSet o <-> ~ allFieldsEmpty o.
Proof.
  unfold someFieldSet, allFieldsEmpty; split.
  - intros H (Hu & Hr & Ht & Hl); tauto.
  - intros H.
    destruct (string_dec (User o) "") as [Hu|]; [|tauto].
    destruct (string_dec (Role o) "") as [Hr|]; [|tauto].
    destruct (string_dec (Type_ o) "") as [Ht|]; [|tauto].
    destruct (string_dec (Level o) "") as [Hl|]; tauto.
Qed.

(** The join of four parts, written out. *)
Lemma Join4 (u r t l sep : string) :
  Join [u; r; t; l] sep = (u ++ sep ++ r ++ sep ++ t ++ sep ++ l)%string.
Proof. simpl; now rewrite !append_assoc. Qed.

(** The join of the four fields is [":::"] only for four empty fields. *)
Lemma Join4_colons (u r t l : string) :
  Join [u; r; t; l] ":" = ":::" <-> u = "" /\ r = "" /\ t = "" /\ l = "".
Proof.
  rewrite Join4; split.
  - intros H; apply (f_equal String.length) in H.
    rewrite !length_append in H; simpl in H.
    repeat split; apply length_zero; lia.
  - intros (-> & -> & -> & ->); reflexivity.
Qed.

Lemma Join4_not_nil (u r t l : string) : Join [u; r; t; l] ":" <> "".
Proof.
  rewrite Join4; intros H; apply append_eq_nil in H; destruct H as [_ H].
  discriminate H.
Qed.

(** What the encoder returns for a record. *)
Lemma encode_some (o : SELinuxOptions) :
  SELinuxOptionsToFileLabel (Some o) =
    if string_dec (Join [User o; Role o; Type_ o; Level o] ":") ":::"
    then ("", None)
    else (Join [User o; Role o; Type_ o; Level o] ":", None).
Proof.
  unfold SELinuxOptionsToFileLabel; cbv zeta.
  destruct (string_dec _ _) as [e|n].
  - rewrite e; reflexivity.
  - apply String.eqb_neq in n; rewrite n; reflexivity.
Qed.

Lemma encode_set (o : SELinuxOptions) :
  someFieldSet o ->
  SELinuxOptionsToFileLabel (Some o) =
    ((User o ++ ":" ++ Role o ++ ":" ++ Type_ o ++ ":" ++ Level o)%string, None).
Proof.
  intros H; rewrite encode_some.
  destruct (string_dec _ _) as [e|n].
  - apply Join4_colons in e; apply someFieldSet_not_allEmpty in H.
    now elim H.
  - now rewrite Join4.
Qed.

Lemma encode_empty (o : SELinuxOptions) :
  allFieldsEmpty o -> SELinuxOptionsToFileLabel (Some o) = ("", None).
Proof.
  intros H; rewrite encode_some.
  destruct (string_dec _ _) as [e|n]; [reflexivity|].
  apply Join4_colons in H; contradiction.
Qed.

(** Splitting a joined label: the first three fields must be free of the
    separator, the fourth is the unsplit rest. *)
Lemma SplitN_join4 (u r t l : string) :
  Count u ":" = 0%Z -> Count r ":" = 0%Z -> Count t ":" = 0%Z ->
  SplitN (u ++ ":" ++ r ++ ":" ++ t ++ ":" ++ l) ":" 4 = [u; r; t; l].
Proof.
  intros Hu Hr Ht; rewrite SplitN_loop by lia.
  change (Z.to_nat (4 - 1)) with 3.
  cbn [append].
  rewrite !splitLoop_cons by assumption; reflexivity.
Qed.

End EncoderFacts.

(** ** Facts about the conflict detector *)

Module ConflictFacts.

Import Strings Translator StringFacts Spec.

Lemma differ_sym (a b : string) : differ a b = differ b a.
Proof.
  unfold differ; rewrite (String.eqb_sym b a).
  destruct (a =? b)%string, (a =? "")%string, (b =? "")%string; reflexivity.
Qed.

Lemma differ_refl (a : string) : differ a a = false.
Proof. unfold differ; now rewrite String.eqb_refl. Qed.

Lemma differ_nil_l (b : string) : differ "" b = false.
Proof. unfold differ; destruct ("" =? b)%string; reflexivity. Qed.

Lemma differ_true_iff (a b : string) :
  differ a b = true <-> a <> "" /\ b <> "" /\ a <> b.
Proof.
  unfold differ.
  destruct (String.eqb_spec a b), (String.eqb_spec a ""), (String.eqb_spec b "");
    intuition congruence.
Qed.

Lemma anyDiffer_sym (pa pb : list string) : anyDiffer pa pb = anyDiffer pb pa.
Proof.
  unfold anyDiffer; revert pb; induction pa as [|a pa IH]; intros [|b pb];
    simpl; try reflexivity.
  now rewrite differ_sym, IH.
Qed.

Lemma anyDiffer_refl (pa : list string) : anyDiffer pa pa = false.
Proof.
  unfold anyDiffer; induction pa as [|a pa IH]; simpl; [reflexivity|].
  now rewrite differ_refl, IH.
Qed.

Lemma anyDiffer_all_empty (pa pb : list string) :
  Forall (eq "") pa -> anyDiffer pa pb = false.
Proof.
  unfold anyDiffer; intros H; revert pb; induction H as [|a pa <- _ IH];
    intros [|b pb]; simpl; try reflexivity.
  now rewrite differ_nil_l, IH.
Qed.

Lemma anyDiffer_true_iff (pa pb : list string) :
  anyDiffer pa pb = true <->
  exists i x y, nth_error pa i = Some x /\ nth_error pb i = Some y /\
                differ x y = true.
Proof.
  unfold anyDiffer; revert pb; induction pa as [|a pa IH]; intros pb.
  - simpl; split; [discriminate|].
    intros ([|i] & x & y & H & _); discriminate H.
  - destruct pb as [|b pb].
    + simpl; split; [discriminate|].
      intros ([|i] & x & y & _ & H & _); discriminate H.
    + simpl; rewrite orb_true_iff, IH; split.
      * intros [H | (i & x & y & Ha & Hb & Hd)].
        -- exists 0, a, b; auto.
        -- exists (S i), x, y; auto.
      * intros ([|i] & x & y & Ha & Hb & Hd); simpl in Ha, Hb.
        -- left; congruence.
        -- right; exists i, x, y; auto.
Qed.

(** *** The padding loop *)

Lemma padLoop_rightPad (partsB : list string) (n : nat) :
  padLoop partsB n = rightPad partsB n.
Proof.
  unfold rightPad; funelim (padLoop partsB n).
  - rewrite H, length_app; simpl List.length.
    replace (n - List.length partsB) with (S (n - (List.length partsB + 1))) by lia.
    now rewrite <- app_assoc.
  - replace (n - List.length partsB) with 0 by lia.
    now rewrite app_nil_r.
Qed.

Lemma rightPad_length (parts : list string) (n : nat) :
  List.length (rightPad parts n) = Nat.max (List.length parts) n.
Proof. unfold rightPad; rewrite length_app, repeat_length; lia. Qed.

Lemma rightPad_full (parts : list string) (n : nat) :
  n <= List.length parts -> rightPad parts n = parts.
Proof.
  intros H; unfold rightPad; replace (n - List.length parts) with 0 by lia.
  apply app_nil_r.
Qed.

Lemma rightPad_all_empty (parts : list string) (n : nat) :
  Forall (eq "") parts -> Forall (eq "") (rightPad parts n).
Proof.
  intros H; unfold rightPad; apply Forall_app; split; [exact H|].
  apply Forall_forall; intros x Hx; symmetry; exact (repeat_spec _ _ _ Hx).
Qed.

(** *** The comparison loop *)

(** On two lists of one length the loop visits every position, never
    indexes out of range, and returns [true] exactly when some position
    differs. *)
Lemma rangeLoop_from (preA preB pa pb : list string) :
  List.length preA = List.length preB ->
  List.length pa = List.length pb ->
  rangeLoop (seq (List.length preA) (List.length pa)) (preA ++ pa) (preB ++ pb)
  = Some (anyDiffer pa pb).
Proof.
  revert preA preB pb; induction pa as [|a pa IH]; intros preA preB pb Hpre Hlen.
  - destruct pb; [reflexivity | discriminate].
  - destruct pb as [|b pb]; [discriminate|].
    simpl in Hlen; injection Hlen as Hlen.
    simpl List.length; simpl seq; simpl rangeLoop.
    rewrite (nth_error_app2 preA), Nat.sub_diag by lia.
    rewrite (nth_error_app2 preB), <- Hpre, Nat.sub_diag by lia.
    simpl nth_error.
    specialize (IH (preA ++ [a]) (preB ++ [b]) pb).
    rewrite !length_app, <- !app_assoc in IH; simpl in IH.
    rewrite Nat.add_1_r in IH.
    rewrite IH by (rewrite ?Nat.add_1_r; congruence).
    unfold anyDiffer; simpl; unfold differ.
    destruct (a =? b)%string; [reflexivity|].
    destruct (a =? "")%string; [reflexivity|].
    destruct (b =? "")%string; reflexivity.
Qed.

Lemma rangeLoop_all (pa pb : list string) :
  List.length pa = List.length pb ->
  rangeLoop (seq 0 (List.length pa)) pa pb = Some (anyDiffer pa pb).
Proof. intros H; exact (rangeLoop_from [] [] pa pb eq_refl H). Qed.

(** *** The detector *)

(** [Conflicts] never indexes out of range, and returns whether some
    position of the two padded part-lists differs. *)
Lemma Conflicts_pad (A B : string) :
  let pa := SplitN A ":" 4 in
  let pb := SplitN B ":" 4 in
  let n := Nat.max (List.length pa) (List.length pb) in
  Conflicts A B = Some (anyDiffer (rightPad pa n) (rightPad pb n)).
Proof.
  intros pa pb n; unfold Conflicts; fold pa pb; subst n.
  destruct (Nat.ltb_spec (List.length pa) (List.length pb)) as [Hlt|Hge].
  - rewrite padLoop_rightPad, rangeLoop_all by (rewrite rightPad_length; lia).
    replace (Nat.max (List.length pa) (List.length pb)) with (List.length pb) by lia.
    rewrite (rightPad_full pb) by lia.
    f_equal; apply anyDiffer_sym.
  - rewrite padLoop_rightPad, rangeLoop_all by (rewrite rightPad_length; lia).
    replace (Nat.max (List.length pa) (List.length pb)) with (List.length pa) by lia.
    now rewrite (rightPad_full pa) by lia.
Qed.

Lemma Conflicts_comm (A B : string) : Conflicts A B = Conflicts B A.
Proof.
  rewrite (Conflicts_pad A B), (Conflicts_pad B A); cbv zeta.
  now rewrite Nat.max_comm, anyDiffer_sym.
Qed.

(** A label whose parts are all empty conflicts with nothing. *)
Lemma Conflicts_all_empty (A B : string) :
  Forall (eq "") (SplitN A ":" 4) -> Conflicts A B = Some false.
Proof.
  intros H; rewrite Conflicts_pad; cbv zeta; f_equal.
  apply anyDiffer_all_empty, rightPad_all_empty, H.
Qed.

Lemma SplitN4_length (s : string) :
  1 <= List.length (SplitN s ":" 4) <= 4.
Proof.
  rewrite SplitN_loop, splitLoop_length by lia.
  change (Z.to_nat (4 - 1)) with 3; lia.
Qed.

(** *** The parts of a label with more than four fields *)

Lemma Join_fold (e : string) (rest : list string) (sep : string) :
  Join (e :: rest) sep = fold_left (fun b s => (b ++ sep ++ s)%string) rest e.
Proof. destruct rest; reflexivity. Qed.

Lemma fold_left_prefix (x y sep : string) (rest : list string) :
  fold_left (fun b s => (b ++ sep ++ s)%string) rest (x ++ y)%string
  = (x ++ fold_left (fun b s => (b ++ sep ++ s)%string) rest y)%string.
Proof.
  revert y; induction rest as [|e rest IH]; intros y; simpl; [reflexivity|].
  now rewrite append_assoc, IH.
Qed.

Lemma Join_cons (e e' sep : string) (rest : list string) :
  Join (e :: e' :: rest) sep = (e ++ sep ++ Join (e' :: rest) sep)%string.
Proof.
  rewrite !Join_fold; simpl fold_left.
  now rewrite fold_left_prefix, fold_left_prefix.
Qed.

(** Joining what the split loop returns gives the string back. *)
Lemma Join_splitLoop (k : nat) (s : string) (c : ascii) :
  Join (splitLoop k s c 0) (String c "") = s.
Proof.
  revert s; induction k as [|k IH]; intros s; [reflexivity|].
  destruct (first_sep s c) as [H0 | (p & r & -> & Hp)].
  - now rewrite splitLoop_free.
  - rewrite splitLoop_cons by exact Hp.
    specialize (IH r); destruct (splitLoop k r c 0) as [|e rest] eqn:E.
    + pose proof (splitLoop_length k r c) as Hl; rewrite E in Hl; discriminate.
    + now rewrite Join_cons, IH.
Qed.

(** Stopping the loop after [k] iterations keeps the first [k] fields
    and leaves the rest of the string, separators included, as the last
    part. *)
Lemma splitLoop_stop (k j : nat) (s : string) (c : ascii) :
  k <= j -> (Z.of_nat k <= Count s c)%Z ->
  splitLoop k s c 0 =
    firstn k (splitLoop j s c 0)
    ++ [Join (skipn k (splitLoop j s c 0)) (String c "")].
Proof.
  revert j s; induction k as [|k IH]; intros j s Hj Hc.
  - simpl; now rewrite Join_splitLoop.
  - destruct j as [|j]; [lia|].
    destruct (first_sep s c) as [H0 | (p & r & -> & Hp)]; [lia|].
    rewrite Count_app, Count_cons_sep, Hp in Hc.
    rewrite !splitLoop_cons by exact Hp; simpl.
    now rewrite <- IH by lia.
Qed.

Lemma Split_length (s : string) (c : ascii) :
  List.length (Split s c) = S (Z.to_nat (Count s c)).
Proof. rewrite Split_loop, splitLoop_length; lia. Qed.

End ConflictFacts.

(** ** Facts about the encoder and the detector together *)

Module ComposeFacts.

Import Strings Translator Spec StringFacts EncoderFacts ConflictFacts.

Lemma allFieldsEmpty_or_set (o : SELinuxOptions) :
  allFieldsEmpty o \/ someFieldSet o.
Proof.
  unfold allFieldsEmpty, someFieldSet.
  destruct (string_dec (User o) ""), (string_dec (Role o) ""),
    (string_dec (Type_ o) ""), (string_dec (Level o) ""); tauto.
Qed.

(** The label of a record with a specified field has at least three
    delimiters. *)
Lemma encode_Count (o : SELinuxOptions) :
  someFieldSet o -> (3 <= Count (encode o) ":")%Z.
Proof.
  intros H; unfold encode; rewrite encode_set by exact H; simpl fst.
  repeat (rewrite Count_app || rewrite Count_cons_sep).
  pose proof (Count_nonneg (User o) ":"); pose proof (Count_nonneg (Role o) ":").
  pose proof (Count_nonneg (Type_ o) ":"); pose proof (Count_nonneg (Level o) ":").
  lia.
Qed.

Lemma encode_parts_set (o : SELinuxOptions) :
  headFieldsPlain o -> someFieldSet o ->
  SplitN (encode o) ":" 4 = [User o; Role o; Type_ o; Level o].
Proof.
  intros (Hu & Hr & Ht) H; apply Contains_false_iff in Hu, Hr, Ht.
  unfold encode; rewrite encode_set by exact H; simpl fst.
  now apply SplitN_join4.
Qed.

(** Padded to four fields, the parts of a record's label are its fields. *)
Lemma encode_parts (o : SELinuxOptions) :
  headFieldsPlain o ->
  rightPad (SplitN (encode o) ":" 4) 4 = [User o; Role o; Type_ o; Level o].
Proof.
  intros Hp; destruct (allFieldsEmpty_or_set o) as [He | Hs].
  - unfold encode; rewrite encode_empty by exact He.
    destruct He as (-> & -> & -> & ->); reflexivity.
  - now rewrite encode_parts_set.
Qed.

Lemma rightPad_more (l : list string) (n m : nat) :
  List.length l <= n -> n <= m ->
  rightPad l m = rightPad l n ++ repeat "" (m - n).
Proof.
  intros Hl Hn; unfold rightPad; rewrite <- app_assoc, <- repeat_app.
  do 2 f_equal; lia.
Qed.

Lemma anyDiffer_app_empty (pa pb : list string) (k : nat) :
  List.length pa = List.length pb ->
  anyDiffer (pa ++ repeat "" k) (pb ++ repeat "" k) = anyDiffer pa pb.
Proof.
  revert pb; induction pa as [|a pa IH]; intros [|b pb] H; try discriminate H.
  - simpl; apply anyDiffer_refl.
  - injection H as H; unfold anyDiffer in *; simpl; now rewrite IH.
Qed.

(** The detector compares as if both part-lists were padded to four
    fields. *)
Lemma Conflicts_pad4 (A B : string) :
  Conflicts A B =
    Some (anyDiffer (rightPad (SplitN A ":" 4) 4) (rightPad (SplitN B ":" 4) 4)).
Proof.
  rewrite Conflicts_pad; cbv zeta; f_equal.
  pose proof (SplitN4_length A) as HA; pose proof (SplitN4_length B) as HB.
  set (n := Nat.max _ _).
  rewrite (rightPad_more (SplitN A ":" 4) n 4), (rightPad_more (SplitN B ":" 4) n 4)
    by (subst n; lia).
  rewrite anyDiffer_app_empty; [reflexivity|].
  rewrite !rightPad_length; subst n; lia.
Qed.

Lemma anyDiffer4 (a1 a2 a3 a4 b1 b2 b3 b4 : string) :
  anyDiffer [a1; a2; a3; a4] [b1; b2; b3; b4]
  = differ a1 b1 || differ a2 b2 || differ a3 b3 || differ a4 b4.
Proof. unfold anyDiffer; simpl; now rewrite orb_false_r, !orb_assoc. Qed.

Lemma differ_false_iff (a b : string) : differ a b = false <-> compatible a b.
Proof.
  unfold differ, compatible.
  destruct (String.eqb_spec a b), (String.eqb_spec a ""), (String.eqb_spec b "");
    intuition congruence.
Qed.

(** The labels of two records are compared field by field. *)
Lemma Conflicts_encode (a b : SELinuxOptions) :
  headFieldsPlain a -> headFieldsPlain b ->
  Conflicts (encode a) (encode b) =
    Some (differ (User a) (User b) || differ (Role a) (Role b)
          || differ (Type_ a) (Type_ b) || differ (Level a) (Level b)).
Proof.
  intros Ha Hb; rewrite Conflicts_pad4, !encode_parts by assumption.
  now rewrite anyDiffer4.
Qed.

Lemma differ_fillsIn (x y x' y' : string) :
  (x = "" \/ x = x') -> (y = "" \/ y = y') ->
  differ x y = true -> differ x' y' = true.
Proof.
  rewrite !differ_true_iff; intros [-> | ->] [-> | ->]; tauto.
Qed.

(** A separator appended to a string that the loop splits to the end adds
    one empty part. *)
Lemma splitLoop_snoc_sep (k : nat) (s : string) (c : ascii) :
  (Count s c < Z.of_nat k)%Z ->
  splitLoop k (s ++ String c "") c 0 = splitLoop k s c 0 ++ [""].
Proof.
  revert s; induction k as [|k IH]; intros s Hk.
  - pose proof (Count_nonneg s c); lia.
  - destruct (first_sep s c) as [H0 | (p & r & -> & Hp)].
    + rewrite splitLoop_cons, !splitLoop_free by (exact H0 || reflexivity).
      reflexivity.
    + rewrite Count_app, Count_cons_sep, Hp in Hk.
      rewrite append_assoc; cbn [append].
      rewrite !splitLoop_cons by exact Hp.
      simpl; now rewrite IH by lia.
Qed.

Lemma rightPad_snoc (l : list string) (n : nat) :
  List.length l < n -> rightPad (l ++ [""]) n = rightPad l n.
Proof.
  intros H; unfold rightPad; rewrite length_app, <- app_assoc; simpl.
  replace (n - List.length l) with (S (n - (List.length l + 1))) by lia.
  reflexivity.
Qed.

(** Every part the loop cuts off before a separator is free of it. *)
Lemma splitLoop_plain (k : nat) (s : string) (c : ascii) (i : nat) (p : string) :
  S i < List.length (splitLoop k s c 0) ->
  nth_error (splitLoop k s c 0) i = Some p -> Count p c = 0%Z.
Proof.
  revert s i; induction k as [|k IH]; intros s i Hi Hp.
  - simpl in Hi; lia.
  - destruct (first_sep s c) as [H0 | (q & r & -> & Hq)].
    + rewrite splitLoop_free in Hi by exact H0; simpl in Hi; lia.
    + rewrite splitLoop_cons in Hi, Hp by exact Hq.
      destruct i as [|i]; simpl in Hi, Hp.
      * now injection Hp as <-.
      * apply (IH r i); [lia | exact Hp].
Qed.

(** When the loop has an iteration for every separator, every part is
    free of it. *)
Lemma splitLoop_all_plain (k : nat) (s : string) (c : ascii) :
  (Count s c <= Z.of_nat k)%Z ->
  Forall (fun p => Count p c = 0%Z) (splitLoop k s c 0).
Proof.
  revert s; induction k as [|k IH]; intros s Hk.
  - pose proof (Count_nonneg s c); simpl; repeat constructor; lia.
  - destruct (first_sep s c) as [H0 | (q & r & -> & Hq)].
    + rewrite splitLoop_free by exact H0; repeat constructor; exact H0.
    + rewrite Count_app, Count_cons_sep, Hq in Hk.
      rewrite splitLoop_cons by exact Hq; constructor; [exact Hq|].
      apply IH; lia.
Qed.

End ComposeFacts.

(** ** The properties of the translator *)

Import Strings Translator StringFacts EncoderFacts Spec ConflictFacts.

(** *** Scenarios *)

Example encode_scenario_empty :
  SELinuxOptionsToFileLabel (Some (mkSELinuxOptions "" "" "" "")) = ("", None).
Proof. reflexivity. Qed.

Example encode_scenario_type_only :
  SELinuxOptionsToFileLabel (Some (mkSELinuxOptions "" "" "t" "")) = ("::t:", None).
Proof. reflexivity. Qed.

Example split_empty : SplitN "" ":" 4 = [""].
Proof. reflexivity. Qed.

Example conflict_scenario_level :
  Conflicts "system_u:system_r:container_t:s0:c1,c2" ":::s0:c98,c99" = Some true.
Proof. reflexivity. Qed.

Example conflict_scenario_partial_match :
  Conflicts "system_u:system_r:container_t:s0:c1,c2" ":::s0:c1,c2" = Some false.
Proof. reflexivity. Qed.

Example conflict_scenario_absent : Conflicts "" "" = Some false.
Proof. reflexivity. Qed.

(** *** The encoder *)

(** C2: the encoder returns the empty string if and only if its input is
    absent (nil) or all four fields are empty; for every record with at
    least one non-empty field it returns a non-empty string. *)
Theorem encode_empty_iff_absent_or_all_empty (opts : option SELinuxOptions) :
  (fst (SELinuxOptionsToFileLabel opts) = "" <->
   opts = None \/ exists o, opts = Some o /\ allFieldsEmpty o) /\
  (forall o, opts = Some o -> someFieldSet o ->
             fst (SELinuxOptionsToFileLabel opts) <> "").
Proof.
  assert (Hset : forall o, someFieldSet o ->
                           fst (SELinuxOptionsToFileLabel (Some o)) <> "").
  { intros o H; rewrite encode_some.
    destruct (string_dec _ _) as [e|n]; [|apply Join4_not_nil].
    apply Join4_colons in e; apply someFieldSet_not_allEmpty in H.
    now elim H. }
  split.
  - destruct opts as [o|]; [|split; auto].
    split.
    + intros H; right; exists o; split; [reflexivity|].
      destruct (someFieldSet_not_allEmpty o) as [_ Hn].
      unfold allFieldsEmpty.
      destruct (string_dec (User o) "") as [Hu|Hu];
        [|elim (Hset o (or_introl Hu) H)].
      destruct (string_dec (Role o) "") as [Hr|Hr];
        [|elim (Hset o (or_intror (or_introl Hr)) H)].
      destruct (string_dec (Type_ o) "") as [Ht|Ht];
        [|elim (Hset o (or_intror (or_intror (or_introl Ht))) H)].
      destruct (string_dec (Level o) "") as [Hl|Hl];
        [|elim (Hset o (or_intror (or_intror (or_intror Hl))) H)].
      auto.
    + intros [H | (o' & H & He)]; [discriminate|].
      injection H as <-; now rewrite encode_empty.
  - intros o -> H; exact (Hset o H).
Qed.

(** C5: for every record with at least one non-empty field the encoder
    returns exactly the four fields joined with [":"] in the order User,
    Role, Type, Level: three delimiters, empty fields kept in place. *)
Theorem encode_joins_four_fields (o : SELinuxOptions) :
  someFieldSet o ->
  SELinuxOptionsToFileLabel (Some o) =
    ((User o ++ ":" ++ Role o ++ ":" ++ Type_ o ++ ":" ++ Level o)%string, None).
Proof. exact (encode_set o). Qed.

(** The scenario of C5: the record (system_u, system_r, container_t,
    s0:c1,c2). *)
Lemma encode_joins_four_fields_witness :
  someFieldSet (mkSELinuxOptions "system_u" "system_r" "container_t" "s0:c1,c2") /\
  SELinuxOptionsToFileLabel
    (Some (mkSELinuxOptions "system_u" "system_r" "container_t" "s0:c1,c2"))
  = ("system_u:system_r:container_t:s0:c1,c2", None).
Proof.
  assert (H : someFieldSet
                (mkSELinuxOptions "system_u" "system_r" "container_t" "s0:c1,c2"))
    by (left; simpl; discriminate).
  split; [exact H|].
  exact (encode_joins_four_fields _ H).
Defined.

(** C6: for every record in which no field contains the delimiter and not
    all four fields are empty, splitting the encoder's output on [":"] with
    a maximum field count of 4 gives exactly the four fields, in order. *)
Theorem encode_split_roundtrip (o : SELinuxOptions) :
  Contains (User o) ":" = false ->
  Contains (Role o) ":" = false ->
  Contains (Type_ o) ":" = false ->
  Contains (Level o) ":" = false ->
  ~ allFieldsEmpty o ->
  SplitN (fst (SELinuxOptionsToFileLabel (Some o))) ":" 4
  = [User o; Role o; Type_ o; Level o].
Proof.
  intros Hu Hr Ht _ Hne.
  apply Contains_false_iff in Hu, Hr, Ht.
  apply someFieldSet_not_allEmpty in Hne.
  rewrite encode_set by exact Hne; simpl fst.
  now apply SplitN_join4.
Qed.

Lemma encode_split_roundtrip_witness :
  SplitN (fst (SELinuxOptionsToFileLabel
                 (Some (mkSELinuxOptions "system_u" "" "container_t" "s0"))))
         ":" 4
  = ["system_u"; ""; "container_t"; "s0"].
Proof.
  apply (encode_split_roundtrip (mkSELinuxOptions "system_u" "" "container_t" "s0"));
    try reflexivity.
  intros (H & _); simpl in H; discriminate H.
Defined.

(** C9: the encoder never fails: for the absent record and for every
    record it returns a string together with the nil error. *)
Theorem encode_never_fails (opts : option SELinuxOptions) :
  exists label, SELinuxOptionsToFileLabel opts = (label, None).
Proof.
  destruct opts as [o|]; [|now exists ""].
  rewrite encode_some; destruct (string_dec _ _); eauto.
Qed.

(** *** The conflict detector *)

(** C1: [Conflicts] returns, and it returns [true] if and only if, after
    splitting each label on [":"] with a maximum field count of 4 and
    right-padding the shorter part-list with empty strings to the longer
    one's length, some position holds two fields that are both non-empty
    and unequal; it returns [false] if and only if at every position the
    fields are equal or at least one of them is empty. *)
Theorem Conflicts_iff_conflicting_position (A B : string) :
  let pa := SplitN A ":" 4 in
  let pb := SplitN B ":" 4 in
  let n := Nat.max (List.length pa) (List.length pb) in
  (exists r, Conflicts A B = Some r) /\
  (Conflicts A B = Some true <->
   exists i, conflictAt (rightPad pa n) (rightPad pb n) i) /\
  (Conflicts A B = Some false <->
   forall i, harmlessAt (rightPad pa n) (rightPad pb n) i).
Proof.
  intros pa pb n; rewrite (Conflicts_pad A B); fold pa pb n.
  assert (Ht : anyDiffer (rightPad pa n) (rightPad pb n) = true <->
               exists i, conflictAt (rightPad pa n) (rightPad pb n) i).
  { rewrite anyDiffer_true_iff; unfold conflictAt; split.
    - intros (i & x & y & Ha & Hb & Hd); apply differ_true_iff in Hd.
      exists i, x, y; tauto.
    - intros (i & x & y & Ha & Hb & Hd); exists i, x, y.
      rewrite differ_true_iff; tauto. }
  split; [eauto|]; split.
  - rewrite <- Ht; split; [now intros [= ->] | now intros ->].
  - split.
    + intros [= Hf] i x y Ha Hb.
      destruct (string_dec x y) as [|Hxy]; [now left|].
      destruct (string_dec x "") as [|Hx]; [now right; left|].
      destruct (string_dec y "") as [|Hy]; [now right; right|].
      assert (Hc : exists i, conflictAt (rightPad pa n) (rightPad pb n) i)
        by (exists i, x, y; tauto).
      apply Ht in Hc; congruence.
    + intros H; f_equal; apply not_true_is_false; intros Hd.
      apply Ht in Hd; destruct Hd as (i & x & y & Ha & Hb & Hx & Hy & Hxy).
      destruct (H i x y Ha Hb) as [|[|]]; contradiction.
Qed.

(** C3: [Conflicts] is symmetric, whatever the lengths of the two
    part-lists. *)
Theorem Conflicts_symmetric (A B : string) : Conflicts A B = Conflicts B A.
Proof. exact (Conflicts_comm A B). Qed.

(** C4: the empty label conflicts with nothing. *)
Theorem Conflicts_empty_absorbs (A : string) : Conflicts "" A = Some false.
Proof. apply Conflicts_all_empty; repeat constructor. Qed.

(** C7: no label conflicts with itself, well-formed or not. *)
Theorem Conflicts_irreflexive (A : string) : Conflicts A A = Some false.
Proof. rewrite Conflicts_pad; cbv zeta; f_equal; apply anyDiffer_refl. Qed.

(** C10: the label [":::"] splits into four empty fields and, like the
    empty label, conflicts with nothing. *)
Theorem Conflicts_colons_absorbs (X : string) :
  SplitN ":::" ":" 4 = [""; ""; ""; ""] /\
  Conflicts ":::" X = Some false /\
  Conflicts ":::" X = Conflicts "" X.
Proof.
  assert (H : Conflicts ":::" X = Some false)
    by (apply Conflicts_all_empty; repeat constructor).
  repeat split; [exact H|].
  rewrite H; symmetry; apply Conflicts_all_empty; repeat constructor.
Qed.

(** C8: a label with more than four colon-delimited fields is compared as
    a list of exactly four parts: the split's maximum field count keeps
    the first three fields and leaves the rest of the label, further
    delimiters included, as the fourth part; the loop visits the positions
    0 to 3 and there is no further position. *)
Theorem Conflicts_four_positions (s : string) :
  4 < List.length (Split s ":") ->
  let parts := SplitN s ":" 4 in
  List.length parts = 4 /\
  parts = firstn 3 (Split s ":") ++ [Join (skipn 3 (Split s ":")) ":"] /\
  (forall i, 4 <= i -> nth_error parts i = None) /\
  (forall B,
     let pb := rightPad (SplitN B ":" 4) 4 in
     List.length pb = 4 /\
     Conflicts s B = rangeLoop [0; 1; 2; 3] parts pb /\
     Conflicts B s = rangeLoop [0; 1; 2; 3] pb parts).
Proof.
  intros Hs parts.
  rewrite Split_length in Hs.
  assert (Hc : (4 <= Count s ":")%Z) by lia.
  assert (Hl : List.length parts = 4).
  { subst parts; rewrite SplitN_loop, splitLoop_length by lia.
    change (Z.to_nat (4 - 1)) with 3; lia. }
  split; [exact Hl|]; split; [|split].
  - subst parts; rewrite SplitN_loop, Split_loop by lia.
    change (Z.to_nat (4 - 1)) with 3.
    apply splitLoop_stop; lia.
  - intros i Hi; apply nth_error_None; lia.
  - intros B pb.
    pose proof (SplitN4_length B) as HB.
    assert (Hpb : List.length pb = 4)
      by (subst pb; rewrite rightPad_length; lia).
    split; [exact Hpb|].
    pose proof (rangeLoop_all parts pb) as R1; rewrite Hl in R1.
    pose proof (rangeLoop_all pb parts) as R2; rewrite Hpb in R2.
    change (seq 0 4) with [0; 1; 2; 3] in R1, R2.
    rewrite R1, R2 by congruence.
    rewrite (Conflicts_pad s B), (Conflicts_pad B s); cbv zeta; fold parts.
    replace (Nat.max (List.length parts) (List.length (SplitN B ":" 4)))
      with 4 by lia.
    replace (Nat.max (List.length (SplitN B ":" 4)) (List.length parts))
      with 4 by lia.
    fold pb; rewrite (rightPad_full parts) by lia.
    split; reflexivity.
Qed.

Lemma Conflicts_four_positions_witness :
  4 < List.length (Split "a:b:c:d:e" ":") /\
  SplitN "a:b:c:d:e" ":" 4 = ["a"; "b"; "c"; "d:e"] /\
  Conflicts "a:b:c:d:e" "a:b:c:d" = Some true.
Proof.
  assert (H : 4 < List.length (Split "a:b:c:d:e" ":")) by (vm_compute; lia).
  destruct (Conflicts_four_positions "a:b:c:d:e" H) as (_ & Hparts & _ & Hcmp).
  destruct (Hcmp "a:b:c:d") as (_ & Hc & _).
  split; [exact H|]; split; [exact Hparts | exact Hc].
Defined.

(** ** Further properties of the translator *)

Import ComposeFacts.

(** *** The encoder *)

(** X1: the round trip of C6 does not need a Level free of the delimiter:
    when User, Role and Type contain no [":"] and some field is set,
    splitting the label with a maximum field count of 4 gives back the
    four fields, whatever the Level holds. *)
Theorem encode_split_roundtrip_any_level (o : SELinuxOptions) :
  headFieldsPlain o -> someFieldSet o ->
  SplitN (encode o) ":" 4 = [User o; Role o; Type_ o; Level o].
Proof. exact (encode_parts_set o). Qed.

Lemma encode_split_roundtrip_any_level_witness :
  SplitN (encode (mkSELinuxOptions "system_u" "system_r" "container_t" "s0:c1,c2"))
         ":" 4
  = ["system_u"; "system_r"; "container_t"; "s0:c1,c2"].
Proof.
  apply (encode_split_roundtrip_any_level
           (mkSELinuxOptions "system_u" "system_r" "container_t" "s0:c1,c2")).
  - repeat split; reflexivity.
  - left; simpl; discriminate.
Defined.

(** X2: the label of a record always splits into the number of parts the
    detector expects, whatever bytes the fields hold: exactly four parts
    when some field is set, and the single empty part when none is. *)
Theorem encode_part_count (o : SELinuxOptions) :
  (someFieldSet o /\ List.length (SplitN (encode o) ":" 4) = 4) \/
  (allFieldsEmpty o /\ SplitN (encode o) ":" 4 = [""]).
Proof.
  destruct (allFieldsEmpty_or_set o) as [He | Hs].
  - right; split; [exact He|].
    unfold encode; now rewrite encode_empty.
  - left; split; [exact Hs|].
    pose proof (encode_Count o Hs).
    rewrite SplitN_loop, splitLoop_length by lia.
    change (Z.to_nat (4 - 1)) with 3; lia.
Qed.

(** X3: on records whose User, Role and Type contain no [":"] the encoder
    is injective: two records have the same label only if they are the
    same record. *)
Theorem encode_injective (a b : SELinuxOptions) :
  headFieldsPlain a -> headFieldsPlain b ->
  (encode a = encode b <-> a = b).
Proof.
  intros Ha Hb; split; [|now intros ->].
  intros H.
  pose proof (encode_parts a Ha) as Pa; pose proof (encode_parts b Hb) as Pb.
  rewrite H, Pb in Pa; destruct a, b; simpl in Pa.
  now injection Pa as -> -> -> ->.
Qed.

Lemma encode_injective_witness :
  (encode (mkSELinuxOptions "" "" "" "s0:c1,c2")
   = encode (mkSELinuxOptions "" "" "" "s0:c1,c3")
   <-> mkSELinuxOptions "" "" "" "s0:c1,c2" = mkSELinuxOptions "" "" "" "s0:c1,c3").
Proof.
  apply (encode_injective (mkSELinuxOptions "" "" "" "s0:c1,c2")
                          (mkSELinuxOptions "" "" "" "s0:c1,c3"));
    repeat split; reflexivity.
Defined.

(** Without that condition two records can share a label. *)
Example encode_collision :
  encode (mkSELinuxOptions "a:" "" "" "") = encode (mkSELinuxOptions "a" "" "" ":").
Proof. reflexivity. Qed.

(** X4: the encoder never returns [":::"], for the absent record and for
    every record: the label of four empty fields is the empty string. *)
Theorem encode_never_colons (opts : option SELinuxOptions) :
  (fst (SELinuxOptionsToFileLabel opts) =? ":::")%string = false.
Proof.
  destruct opts as [o|]; [|reflexivity].
  rewrite encode_some; destruct (string_dec _ _) as [e|n]; [reflexivity|].
  now apply String.eqb_neq.
Qed.

(** *** The detector *)

(** X5: re-joining the parts the detector works on gives the label back:
    the split with a maximum field count of 4 loses no byte of a label. *)
Theorem Conflicts_parts_rejoin (label : string) :
  Join (SplitN label ":" 4) ":" = label.
Proof. rewrite SplitN_loop by lia; apply Join_splitLoop. Qed.

(** X6: every part of a label but the last is free of the delimiter, and
    so is the last one when the label has at most three delimiters. *)
Theorem Conflicts_parts_plain (label : string) :
  (forall i p, S i < List.length (SplitN label ":" 4) ->
               nth_error (SplitN label ":" 4) i = Some p ->
               Contains p ":" = false) /\
  ((Count label ":" <=? 3)%Z = true ->
   Forall (fun p => Contains p ":" = false) (SplitN label ":" 4)).
Proof.
  rewrite SplitN_loop by lia; change (Z.to_nat (4 - 1)) with 3; split.
  - intros i p Hi Hp; apply Contains_false_iff.
    exact (splitLoop_plain 3 label ":" i p Hi Hp).
  - intros H; apply Z.leb_le in H.
    eapply Forall_impl; [|apply splitLoop_all_plain; lia].
    intros p Hp; now apply Contains_false_iff.
Qed.

(** X7: the swap and the padding to the longer list come to the same as
    padding both part-lists to four fields and visiting the positions 0 to
    3: the detector always decides on four pairs of fields. *)
Theorem Conflicts_compares_four_fields (A B : string) :
  Conflicts A B =
    rangeLoop [0; 1; 2; 3] (rightPad (SplitN A ":" 4) 4)
                           (rightPad (SplitN B ":" 4) 4).
Proof.
  pose proof (SplitN4_length A) as HA; pose proof (SplitN4_length B) as HB.
  assert (La : List.length (rightPad (SplitN A ":" 4) 4) = 4)
    by (rewrite rightPad_length; lia).
  assert (Lb : List.length (rightPad (SplitN B ":" 4) 4) = 4)
    by (rewrite rightPad_length; lia).
  pose proof (rangeLoop_all _ _ (eq_trans La (eq_sym Lb))) as R.
  rewrite La in R; change (seq 0 4) with [0; 1; 2; 3] in R.
  rewrite R; apply Conflicts_pad4.
Qed.

(** X8: a label with fewer than four fields is compared as if the missing
    trailing fields were there and empty: appending a delimiter to a label
    with at most two delimiters changes no result. *)
Theorem Conflicts_trailing_delimiter (A B : string) :
  (Count A ":" < 3)%Z ->
  Conflicts (A ++ ":") B = Conflicts A B /\
  Conflicts B (A ++ ":") = Conflicts B A.
Proof.
  intros H.
  assert (E : rightPad (SplitN (A ++ ":") ":" 4) 4 = rightPad (SplitN A ":" 4) 4).
  { rewrite !SplitN_loop by lia; change (Z.to_nat (4 - 1)) with 3.
    rewrite splitLoop_snoc_sep by lia.
    apply rightPad_snoc; rewrite splitLoop_length.
    pose proof (Count_nonneg A ":"); lia. }
  now rewrite !Conflicts_pad4, E.
Qed.

Lemma Conflicts_trailing_delimiter_witness :
  SplitN "system_u:system_r" ":" 4 = ["system_u"; "system_r"] /\
  Conflicts "system_u:system_r:" ":system_r:container_t:s0"
  = Conflicts "system_u:system_r" ":system_r:container_t:s0".
Proof.
  split; [reflexivity|].
  apply (Conflicts_trailing_delimiter "system_u:system_r"
           ":system_r:container_t:s0").
  vm_compute; reflexivity.
Defined.

(** *** The encoder and the detector together *)

(** X9: the labels of two records whose User, Role and Type contain no
    [":"] conflict exactly when some field is set in both records to two
    different values, and do not conflict exactly when in every field one
    side is empty or both agree; the Levels are compared whole. *)
Theorem Conflicts_encode_fieldwise (a b : SELinuxOptions) :
  headFieldsPlain a -> headFieldsPlain b ->
  (Conflicts (encode a) (encode b) = Some true <->
   clash (User a) (User b) \/ clash (Role a) (Role b) \/
   clash (Type_ a) (Type_ b) \/ clash (Level a) (Level b)) /\
  (Conflicts (encode a) (encode b) = Some false <->
   compatible (User a) (User b) /\ compatible (Role a) (Role b) /\
   compatible (Type_ a) (Type_ b) /\ compatible (Level a) (Level b)).
Proof.
  intros Ha Hb; rewrite Conflicts_encode by assumption; unfold clash.
  rewrite <- !differ_true_iff, <- !differ_false_iff.
  destruct (differ (User a) (User b)), (differ (Role a) (Role b)),
    (differ (Type_ a) (Type_ b)), (differ (Level a) (Level b)); simpl;
    intuition congruence.
Qed.

Lemma Conflicts_encode_fieldwise_witness :
  Conflicts (encode (mkSELinuxOptions "system_u" "system_r" "container_t" "s0:c1,c2"))
            (encode (mkSELinuxOptions "" "" "" "s0:c98,c99"))
  = Some true.
Proof.
  apply (Conflicts_encode_fieldwise
           (mkSELinuxOptions "system_u" "system_r" "container_t" "s0:c1,c2")
           (mkSELinuxOptions "" "" "" "s0:c98,c99")).
  - repeat split; reflexivity.
  - repeat split; reflexivity.
  - right; right; right; repeat split; simpl; discriminate.
Defined.

(** X10: a record never conflicts with a record that fills in its empty
    fields (User, Role and Type of both free of [":"]): the label the node
    may expand a partial label to does not conflict with it. *)
Theorem Conflicts_fillsIn (a b : SELinuxOptions) :
  headFieldsPlain a -> headFieldsPlain b -> fillsIn a b ->
  Conflicts (encode a) (encode b) = Some false /\
  Conflicts (encode b) (encode a) = Some false.
Proof.
  intros Ha Hb (Hu & Hr & Ht & Hl).
  assert (C : Conflicts (encode a) (encode b) = Some false).
  { apply (Conflicts_encode_fieldwise a b Ha Hb); unfold compatible.
    repeat split; tauto. }
  split; [exact C | now rewrite Conflicts_comm].
Qed.

Lemma Conflicts_fillsIn_witness :
  Conflicts (encode (mkSELinuxOptions "" "" "" "s0:c1,c2"))
            (encode (mkSELinuxOptions "system_u" "system_r" "container_t" "s0:c1,c2"))
  = Some false.
Proof.
  apply (Conflicts_fillsIn
           (mkSELinuxOptions "" "" "" "s0:c1,c2")
           (mkSELinuxOptions "system_u" "system_r" "container_t" "s0:c1,c2")).
  - repeat split; reflexivity.
  - repeat split; reflexivity.
  - repeat split; simpl; auto.
Defined.

(** The condition on the fields is needed: a User with a delimiter shifts
    the parts, and the filled-in record conflicts. *)
Example Conflicts_fillsIn_shifted :
  fillsIn (mkSELinuxOptions "" "" "" "z") (mkSELinuxOptions "p:q" "" "" "z") /\
  Conflicts (encode (mkSELinuxOptions "" "" "" "z"))
            (encode (mkSELinuxOptions "p:q" "" "" "z")) = Some true.
Proof. split; [repeat split; simpl; auto | reflexivity]. Qed.

(** X11: a conflict between two records stays when their empty fields are
    filled in (User, Role and Type of all four records free of [":"]):
    no defaulting on a node resolves a conflict the detector reports. *)
Theorem Conflicts_persists (a b a' b' : SELinuxOptions) :
  headFieldsPlain a -> headFieldsPlain b ->
  headFieldsPlain a' -> headFieldsPlain b' ->
  fillsIn a a' -> fillsIn b b' ->
  Conflicts (encode a) (encode b) = Some true ->
  Conflicts (encode a') (encode b') = Some true.
Proof.
  intros Ha Hb Ha' Hb' (Au & Ar & At & Al) (Bu & Br & Bt & Bl).
  rewrite !Conflicts_encode by assumption; intros [= H]; f_equal.
  rewrite !orb_true_iff in *.
  destruct H as [[[H | H] | H] | H];
    [left; left; left | left; left; right | left; right | right];
    eapply differ_fillsIn; eauto.
Qed.

Lemma Conflicts_persists_witness :
  Conflicts (encode (mkSELinuxOptions "system_u" "system_r" "container_t" "s0:c1,c2"))
            (encode (mkSELinuxOptions "system_u" "system_r" "container_t" "s0:c98,c99"))
  = Some true.
Proof.
  apply (Conflicts_persists
           (mkSELinuxOptions "" "" "container_t" "s0:c1,c2")
           (mkSELinuxOptions "" "" "" "s0:c98,c99")
           (mkSELinuxOptions "system_u" "system_r" "container_t" "s0:c1,c2")
           (mkSELinuxOptions "system_u" "system_r" "container_t" "s0:c98,c99"));
    try (repeat split; reflexivity);
    try (repeat split; simpl; auto).
Defined.
